(** * Black-Scholes pricing engine: embedding and properties

    The pricing library (namespaces [pricing::core] and [pricing::models])
    is embedded function by function, twice.

    In the main embedding the C++ type [double] is read as the type [R] of
    real numbers: every arithmetic operation, [std::exp], [std::log] and
    [std::sqrt] is taken exactly.  Comparisons of doubles become the
    decidable comparisons of [R]; the [int sign] of [normalCDF] stays an
    integer.  Formula identities, regime structure and every statement with
    room for rounding are proved there.

    Module [binary64] repeats [price] and the functions it calls over IEEE
    754 binary64 numbers, with the rounding of each operation; it is used
    to evaluate the engine at the inputs where rounding decides the sign or
    the order of two prices. *)

From Stdlib Require Import PrimFloat.
From Stdlib Require Import Reals Lra Lia ZArith Bool.
From Stdlib Require Import String List.
Import ListNotations.
Open Scope R_scope.
Set Warnings "-inexact-float".

(** ** Comparisons of doubles as booleans *)

Definition Rltb (a b : R) : bool := if Rlt_dec a b then true else false.
Definition Rleb (a b : R) : bool := if Rle_dec a b then true else false.
Definition Reqb (a b : R) : bool := if Req_dec_T a b then true else false.
Definition Rneqb (a b : R) : bool := negb (Reqb a b).
Definition Rgtb (a b : R) : bool := Rltb b a.

(** [std::max(a, b)] is [(a < b) ? b : a]. *)
Definition std_max (a b : R) : R := if Rltb a b then b else a.

(** ** namespace pricing::core *)

Module core.

Inductive OptionType : Set := Call | Put.

(** The fields of [Option] and [MarketData], as their accessors return them. *)
Record Option : Set := mkOption {
  getType : OptionType;
  getStrike : R;
  getTimeToExpiration : R
}.

Definition isCall (o : Option) : bool :=
  match getType o with Call => true | Put => false end.

Record MarketData : Set := mkMarketData {
  getSpot : R;
  getRiskFreeRate : R;
  getVolatility : R
}.

(** The single error condition of the library, [std::invalid_argument]. *)
Inductive Error : Set := invalid_argument.

(** Modelled from the spec: the constructor of [Option] (header
    core/Option.hpp is not among the sources); it fails with the
    invalid-argument condition if strike <= 0 or timeToExpiration < 0. *)
Definition Option_ctor (type : OptionType) (strike timeToExpiration : R)
  : Error + Option :=
  if Rleb strike 0 || Rltb timeToExpiration 0
  then inl invalid_argument
  else inr (mkOption type strike timeToExpiration).

(** Modelled from the spec: the constructor of [MarketData] (header
    core/MarketData.hpp is not among the sources); it fails with the
    invalid-argument condition if spot <= 0 or volatility < 0, the rate
    being unconstrained. *)
Definition MarketData_ctor (spot riskFreeRate volatility : R)
  : Error + MarketData :=
  if Rleb spot 0 || Rltb volatility 0
  then inl invalid_argument
  else inr (mkMarketData spot riskFreeRate volatility).

(** [struct PricingResult], every member default-initialised to 0.0. *)
Record PricingResult : Set := mkPricingResult {
  price : R;
  delta : R;
  gamma : R;
  vega : R;
  theta : R;
  rho : R
}.

Definition PricingResult_default : PricingResult :=
  mkPricingResult 0 0 0 0 0 0.

Definition set_price (v : R) (res : PricingResult) : PricingResult :=
  mkPricingResult v (delta res) (gamma res) (vega res) (theta res) (rho res).
Definition set_delta (v : R) (res : PricingResult) : PricingResult :=
  mkPricingResult (price res) v (gamma res) (vega res) (theta res) (rho res).
Definition set_gamma (v : R) (res : PricingResult) : PricingResult :=
  mkPricingResult (price res) (delta res) v (vega res) (theta res) (rho res).
Definition set_vega (v : R) (res : PricingResult) : PricingResult :=
  mkPricingResult (price res) (delta res) (gamma res) v (theta res) (rho res).
Definition set_theta (v : R) (res : PricingResult) : PricingResult :=
  mkPricingResult (price res) (delta res) (gamma res) (vega res) v (rho res).
Definition set_rho (v : R) (res : PricingResult) : PricingResult :=
  mkPricingResult (price res) (delta res) (gamma res) (vega res) (theta res) v.

Definition hasGreeks (res : PricingResult) : bool :=
  Rneqb (delta res) 0 || Rneqb (gamma res) 0 || Rneqb (vega res) 0 ||
  Rneqb (theta res) 0 || Rneqb (rho res) 0.

End core.

(** ** class pricing::models::BlackScholesModel *)

Module BlackScholesModel.
Import core.

Definition a1 : R := 0.254829592.
Definition a2 : R := - 0.284496736.
Definition a3 : R := 1.421413741.
Definition a4 : R := - 1.453152027.
Definition a5 : R := 1.061405429.
Definition p : R := 0.3275911.

Definition normalCDF (x : R) : R :=
  let '(sign, x) := if Rltb x 0 then ((-1)%Z, - x) else (1%Z, x) in
  let t := 1 / (1 + p * x) in
  let y := 1 - (((((a5 * t + a4) * t) + a3) * t + a2) * t + a1) * t
               * exp (- x * x) in
  0.5 * (1 + IZR sign * y).

(** The condition of the defensive [if] at the head of [calculateD1]. *)
Definition calculateD1_guard (S K sigma T : R) : bool :=
  Rleb S 0 || Rleb K 0 || Rleb T 0 || Rleb sigma 0.

Definition calculateD1 (S K r sigma T : R) : R :=
  if calculateD1_guard S K sigma T then 0
  else
    let numerator := ln (S / K) + (r + 0.5 * sigma * sigma) * T in
    let denominator := sigma * sqrt T in
    numerator / denominator.

Definition calculateD2 (d1 sigma T : R) : R := d1 - sigma * sqrt T.

Definition calculateCallPrice (S K r T d1 d2 : R) : R :=
  let N_d1 := normalCDF d1 in
  let N_d2 := normalCDF d2 in
  let discountFactor := exp (- r * T) in
  S * N_d1 - K * discountFactor * N_d2.

Definition calculatePutPrice (S K r T d1 d2 : R) : R :=
  let N_minus_d1 := normalCDF (- d1) in
  let N_minus_d2 := normalCDF (- d2) in
  let discountFactor := exp (- r * T) in
  K * discountFactor * N_minus_d2 - S * N_minus_d1.

Definition inv_sqrt_2pi : R := 0.3989422804014327.

Definition normalPDF (x : R) : R := inv_sqrt_2pi * exp (- 0.5 * x * x).

Definition calculateDelta (isCall : bool) (d1 : R) : R :=
  let N_d1 := normalCDF d1 in
  if isCall then N_d1 else N_d1 - 1.

Definition calculateGamma (S sigma T d1 : R) : R :=
  if Rleb S 0 || Rleb sigma 0 || Rleb T 0 then 0
  else
    let pdf_d1 := normalPDF d1 in
    pdf_d1 / (S * sigma * sqrt T).

Definition calculateVega (S T d1 : R) : R :=
  if Rleb S 0 || Rleb T 0 then 0
  else
    let pdf_d1 := normalPDF d1 in
    S * pdf_d1 * sqrt T.

Definition calculateTheta (isCall : bool) (S K r sigma T d1 d2 : R) : R :=
  if Rleb T 0 then 0
  else
    let pdf_d1 := normalPDF d1 in
    let sqrt_T := sqrt T in
    let discountFactor := exp (- r * T) in
    let theta := - S * pdf_d1 * sigma / (2 * sqrt_T) in
    if isCall
    then theta - r * K * discountFactor * normalCDF d2
    else theta + r * K * discountFactor * normalCDF (- d2).

Definition calculateRho (isCall : bool) (K r T d2 : R) : R :=
  if Rleb T 0 then 0
  else
    let discountFactor := exp (- r * T) in
    if isCall
    then K * T * discountFactor * normalCDF d2
    else - K * T * discountFactor * normalCDF (- d2).

Definition price (option : Option) (marketData : MarketData)
  : PricingResult :=
  let S := getSpot marketData in
  let K := getStrike option in
  let r := getRiskFreeRate marketData in
  let sigma := getVolatility marketData in
  let T := getTimeToExpiration option in
  if Reqb T 0 then
    let result := PricingResult_default in
    if isCall option
    then set_price (std_max (S - K) 0) result
    else set_price (std_max (K - S) 0) result
  else if Reqb sigma 0 then
    let result := PricingResult_default in
    let discountFactor := exp (- r * T) in
    if isCall option
    then set_price (std_max (S - K * discountFactor) 0) result
    else set_price (std_max (K * discountFactor - S) 0) result
  else
    let d1 := calculateD1 S K r sigma T in
    let d2 := calculateD2 d1 sigma T in
    let result := PricingResult_default in
    if isCall option
    then set_price (calculateCallPrice S K r T d1 d2) result
    else set_price (calculatePutPrice S K r T d1 d2) result.

Definition priceWithGreeks (option : Option) (marketData : MarketData)
  : PricingResult :=
  let S := getSpot marketData in
  let K := getStrike option in
  let r := getRiskFreeRate marketData in
  let sigma := getVolatility marketData in
  let T := getTimeToExpiration option in
  if Reqb T 0 then
    let result := PricingResult_default in
    if isCall option
    then set_delta (if Rgtb S K then 1 else 0)
           (set_price (std_max (S - K) 0) result)
    else set_delta (if Rltb S K then - 1 else 0)
           (set_price (std_max (K - S) 0) result)
  else if Reqb sigma 0 then
    let result := PricingResult_default in
    let discountFactor := exp (- r * T) in
    if isCall option
    then set_delta (if Rgtb S (K * discountFactor) then 1 else 0)
           (set_price (std_max (S - K * discountFactor) 0) result)
    else set_delta (if Rltb S (K * discountFactor) then - 1 else 0)
           (set_price (std_max (K * discountFactor - S) 0) result)
  else
    let d1 := calculateD1 S K r sigma T in
    let d2 := calculateD2 d1 sigma T in
    let result := PricingResult_default in
    let result :=
      if isCall option
      then set_price (calculateCallPrice S K r T d1 d2) result
      else set_price (calculatePutPrice S K r T d1 d2) result in
    let result := set_delta (calculateDelta (isCall option) d1) result in
    let result := set_gamma (calculateGamma S sigma T d1) result in
    let result := set_vega (calculateVega S T d1) result in
    let result :=
      set_theta (calculateTheta (isCall option) S K r sigma T d1 d2) result in
    let result := set_rho (calculateRho (isCall option) K r T d2) result in
    result.

End BlackScholesModel.

(** ** The caller's view (main.cpp): construct, then price *)

Module cli.
Import core.

(** The sequence of [main] once its arguments are parsed: both value
    objects are constructed, which may raise, and the model is then asked
    for the price.  [priceWithGreeks_request] is the same sequence for the
    extended operation. *)
Definition price_request (type : OptionType) (strike maturity spot rate vol : R)
  : Error + PricingResult :=
  match Option_ctor type strike maturity with
  | inl e => inl e
  | inr option =>
      match MarketData_ctor spot rate vol with
      | inl e => inl e
      | inr marketData => inr (BlackScholesModel.price option marketData)
      end
  end.

Definition priceWithGreeks_request
  (type : OptionType) (strike maturity spot rate vol : R)
  : Error + PricingResult :=
  match Option_ctor type strike maturity with
  | inl e => inl e
  | inr option =>
      match MarketData_ctor spot rate vol with
      | inl e => inl e
      | inr marketData =>
          inr (BlackScholesModel.priceWithGreeks option marketData)
      end
  end.

End cli.

(** ** The calls of [calculateD1]

    [price] and [priceWithGreeks] once more, statement by statement, each
    returning next to its result the list of the calls of [calculateD1] it
    has made, with their arguments.  The early returns make none. *)

Module traced.
Import core.

(** One call [calculateD1(S, K, r, sigma, T)]. *)
Record D1_call : Set := mkD1_call {
  arg_S : R;
  arg_K : R;
  arg_r : R;
  arg_sigma : R;
  arg_T : R
}.

(** Whether the call takes the defensive [return 0.0]. *)
Definition guard_triggered (c : D1_call) : bool :=
  BlackScholesModel.calculateD1_guard (arg_S c) (arg_K c) (arg_sigma c)
    (arg_T c).

Definition calculateD1 (S K r sigma T : R) : list D1_call * R :=
  ([mkD1_call S K r sigma T], BlackScholesModel.calculateD1 S K r sigma T).

Definition price (option : Option) (marketData : MarketData)
  : list D1_call * PricingResult :=
  let S := getSpot marketData in
  let K := getStrike option in
  let r := getRiskFreeRate marketData in
  let sigma := getVolatility marketData in
  let T := getTimeToExpiration option in
  if Reqb T 0 then
    let result := PricingResult_default in
    ([], if isCall option
         then set_price (std_max (S - K) 0) result
         else set_price (std_max (K - S) 0) result)
  else if Reqb sigma 0 then
    let result := PricingResult_default in
    let discountFactor := exp (- r * T) in
    ([], if isCall option
         then set_price (std_max (S - K * discountFactor) 0) result
         else set_price (std_max (K * discountFactor - S) 0) result)
  else
    let '(calls, d1) := calculateD1 S K r sigma T in
    let d2 := BlackScholesModel.calculateD2 d1 sigma T in
    let result := PricingResult_default in
    (calls,
     if isCall option
     then set_price (BlackScholesModel.calculateCallPrice S K r T d1 d2) result
     else set_price (BlackScholesModel.calculatePutPrice S K r T d1 d2) result).

Definition priceWithGreeks (option : Option) (marketData : MarketData)
  : list D1_call * PricingResult :=
  let S := getSpot marketData in
  let K := getStrike option in
  let r := getRiskFreeRate marketData in
  let sigma := getVolatility marketData in
  let T := getTimeToExpiration option in
  if Reqb T 0 then
    let result := PricingResult_default in
    ([], if isCall option
         then set_delta (if Rgtb S K then 1 else 0)
                (set_price (std_max (S - K) 0) result)
         else set_delta (if Rltb S K then - 1 else 0)
                (set_price (std_max (K - S) 0) result))
  else if Reqb sigma 0 then
    let result := PricingResult_default in
    let discountFactor := exp (- r * T) in
    ([], if isCall option
         then set_delta (if Rgtb S (K * discountFactor) then 1 else 0)
                (set_price (std_max (S - K * discountFactor) 0) result)
         else set_delta (if Rltb S (K * discountFactor) then - 1 else 0)
                (set_price (std_max (K * discountFactor - S) 0) result))
  else
    let '(calls, d1) := calculateD1 S K r sigma T in
    let d2 := BlackScholesModel.calculateD2 d1 sigma T in
    let result := PricingResult_default in
    let result :=
      if isCall option
      then set_price (BlackScholesModel.calculateCallPrice S K r T d1 d2) result
      else set_price (BlackScholesModel.calculatePutPrice S K r T d1 d2) result
    in
    let result :=
      set_delta (BlackScholesModel.calculateDelta (isCall option) d1) result in
    let result :=
      set_gamma (BlackScholesModel.calculateGamma S sigma T d1) result in
    let result := set_vega (BlackScholesModel.calculateVega S T d1) result in
    let result :=
      set_theta
        (BlackScholesModel.calculateTheta (isCall option) S K r sigma T d1 d2)
        result in
    let result :=
      set_rho (BlackScholesModel.calculateRho (isCall option) K r T d2) result
    in
    (calls, result).

End traced.

(** ** The command-line tool (main.cpp) *)

Module main_cpp.
Import core.
Local Open Scope string_scope.

(** The character written by "\n". *)
Definition nl : string := String (Ascii.ascii_of_nat 10) EmptyString.

(** An exception object in flight, with the text its [what()] returns. *)
Inductive exception : Set := std_invalid_argument (what : string).

Definition what (e : exception) : string :=
  match e with std_invalid_argument w => w end.

(** The text [printUsage] writes to [std::cerr]. *)
Definition printUsage (programName : string) : string :=
  "Usage: " ++ programName ++ " [OPTIONS]" ++ nl
  ++ "Options:" ++ nl
  ++ "  --model MODEL          Pricing model (black_scholes)" ++ nl
  ++ "  --type TYPE            Option type (call|put)" ++ nl
  ++ "  --spot S               Spot price of underlying asset" ++ nl
  ++ "  --strike K             Strike price" ++ nl
  ++ "  --rate r               Risk-free rate (annual)" ++ nl
  ++ "  --vol σ                Volatility (annual)" ++ nl
  ++ "  --maturity T           Time to expiration (years)" ++ nl
  ++ "  --help                 Show this help message" ++ nl
  ++ nl ++ "Example:" ++ nl
  ++ "  " ++ programName ++ " --model black_scholes --type call \" ++ nl
  ++ "     --spot 100 --strike 105 --rate 0.05 --vol 0.2 --maturity 0.5"
  ++ nl.

Definition parseOptionType (typeStr : string) : exception + OptionType :=
  if typeStr =? "call" then inr Call
  else if typeStr =? "put" then inr Put
  else inl (std_invalid_argument
              ("Invalid option type: " ++ typeStr
               ++ " (must be 'call' or 'put')")).

Record CliArguments : Set := mkCliArguments {
  model : string;
  optionType : OptionType;
  spot : R;
  strike : R;
  rate : R;
  vol : R;
  maturity : R;
  help : bool
}.

(** The default member initialisers of [CliArguments]. *)
Definition CliArguments_default : CliArguments :=
  mkCliArguments "black_scholes" Call 0 0 0 0 0 false.

Definition set_model (v : string) (a : CliArguments) : CliArguments :=
  mkCliArguments v (optionType a) (spot a) (strike a) (rate a) (vol a)
    (maturity a) (help a).
Definition set_optionType (v : OptionType) (a : CliArguments) : CliArguments :=
  mkCliArguments (model a) v (spot a) (strike a) (rate a) (vol a)
    (maturity a) (help a).
Definition set_spot (v : R) (a : CliArguments) : CliArguments :=
  mkCliArguments (model a) (optionType a) v (strike a) (rate a) (vol a)
    (maturity a) (help a).
Definition set_strike (v : R) (a : CliArguments) : CliArguments :=
  mkCliArguments (model a) (optionType a) (spot a) v (rate a) (vol a)
    (maturity a) (help a).
Definition set_rate (v : R) (a : CliArguments) : CliArguments :=
  mkCliArguments (model a) (optionType a) (spot a) (strike a) v (vol a)
    (maturity a) (help a).
Definition set_vol (v : R) (a : CliArguments) : CliArguments :=
  mkCliArguments (model a) (optionType a) (spot a) (strike a) (rate a) v
    (maturity a) (help a).
Definition set_maturity (v : R) (a : CliArguments) : CliArguments :=
  mkCliArguments (model a) (optionType a) (spot a) (strike a) (rate a)
    (vol a) v (help a).
Definition set_help (v : bool) (a : CliArguments) : CliArguments :=
  mkCliArguments (model a) (optionType a) (spot a) (strike a) (rate a)
    (vol a) (maturity a) v.

Definition validateArguments (args : CliArguments) : exception + unit :=
  if negb (model args =? "black_scholes") then
    inl (std_invalid_argument
           ("Unsupported model: " ++ model args
            ++ " (only 'black_scholes' is supported)"))
  else if Rleb (spot args) 0 then
    inl (std_invalid_argument "--spot must be specified and positive")
  else if Rleb (strike args) 0 then
    inl (std_invalid_argument "--strike must be specified and positive")
  else if Rltb (vol args) 0 then
    inl (std_invalid_argument "--vol must be non-negative")
  else if Rltb (maturity args) 0 then
    inl (std_invalid_argument "--maturity must be non-negative")
  else inr tt.

(** What the process leaves behind: its exit status and the text written
    to [std::cout] and to [std::cerr]. *)
Record Outcome : Set := mkOutcome {
  exit_status : Z;
  cout : string;
  cerr : string
}.

Section Library.

(** [std::stod] on the text of an argument: the value converted, or [None]
    where it throws ([std::invalid_argument], [std::out_of_range]).  Texts
    it converts to an infinity or a NaN have no counterpart here. *)
Variable stod : string -> option R.

(** The text [operator<<] writes for a [double] once [std::fixed] and
    [std::setprecision(6)] are in force. *)
Variable put_double : R -> string.

(** The text returned by [what()] for the exception the constructors of
    [Option] and [MarketData] throw; their headers are not among the
    sources. *)
Variable ctor_what : Error -> string.

Definition parseDouble (arg paramName : string) : exception + R :=
  match stod arg with
  | Some v => inr v
  | None =>
      inl (std_invalid_argument
             ("Invalid value for " ++ paramName ++ ": " ++ arg))
  end.

Definition unknown_argument (arg : string) : exception :=
  std_invalid_argument ("Unknown argument: " ++ arg).

(** The body of the [for] loop of [parseArguments], from [argv[i]] on.
    Every branch of the chain except the first asks for [i + 1 < argc];
    when that fails the chain falls through to the final [else], so the
    test is made once, by matching on the rest of [argv]. *)
Fixpoint parseArguments_from (argv : list string) (args : CliArguments)
  : exception + CliArguments :=
  match argv with
  | [] => inr args
  | arg :: rest =>
      if (arg =? "--help") || (arg =? "-h") then inr (set_help true args)
      else
        match rest with
        | [] => inl (unknown_argument arg)
        | value :: rest' =>
            if arg =? "--model" then
              parseArguments_from rest' (set_model value args)
            else if arg =? "--type" then
              match parseOptionType value with
              | inl e => inl e
              | inr t => parseArguments_from rest' (set_optionType t args)
              end
            else if arg =? "--spot" then
              match parseDouble value "--spot" with
              | inl e => inl e
              | inr v => parseArguments_from rest' (set_spot v args)
              end
            else if arg =? "--strike" then
              match parseDouble value "--strike" with
              | inl e => inl e
              | inr v => parseArguments_from rest' (set_strike v args)
              end
            else if arg =? "--rate" then
              match parseDouble value "--rate" with
              | inl e => inl e
              | inr v => parseArguments_from rest' (set_rate v args)
              end
            else if arg =? "--vol" then
              match parseDouble value "--vol" with
              | inl e => inl e
              | inr v => parseArguments_from rest' (set_vol v args)
              end
            else if arg =? "--maturity" then
              match parseDouble value "--maturity" with
              | inl e => inl e
              | inr v => parseArguments_from rest' (set_maturity v args)
              end
            else inl (unknown_argument arg)
        end
  end.

(** [parseArguments(argc, argv)], with [argv] given from [argv[1]] on. *)
Definition parseArguments (argv : list string) : exception + CliArguments :=
  parseArguments_from argv CliArguments_default.

Definition printResult (result : PricingResult) (args : CliArguments)
  : string :=
  nl ++ "=== Option Pricing Result ===" ++ nl
  ++ "Option Type: "
  ++ (match optionType args with Call => "Call" | Put => "Put" end) ++ nl
  ++ "Spot Price: " ++ put_double (spot args) ++ nl
  ++ "Strike Price: " ++ put_double (strike args) ++ nl
  ++ "Risk-Free Rate: " ++ put_double (rate args) ++ nl
  ++ "Volatility: " ++ put_double (vol args) ++ nl
  ++ "Time to Expiration: " ++ put_double (maturity args) ++ " years" ++ nl
  ++ "--------------------------------" ++ nl
  ++ "Option Price: " ++ put_double (price result) ++ nl
  ++ "==============================" ++ nl ++ nl.

(** The [catch] clause of [main]. *)
Definition report (programName : string) (e_what : string) : Outcome :=
  mkOutcome 1 EmptyString ("Error: " ++ e_what ++ nl ++ nl ++ printUsage programName).

(** [main], for [argv[0] = programName] and the further arguments
    [argv]. *)
Definition main (programName : string) (argv : list string) : Outcome :=
  match parseArguments argv with
  | inl e => report programName (what e)
  | inr args =>
      if help args then mkOutcome 0 EmptyString (printUsage programName)
      else
        match validateArguments args with
        | inl e => report programName (what e)
        | inr _ =>
            match Option_ctor (optionType args) (strike args) (maturity args)
            with
            | inl e => report programName (ctor_what e)
            | inr option =>
                match MarketData_ctor (spot args) (rate args) (vol args) with
                | inl e => report programName (ctor_what e)
                | inr marketData =>
                    let result :=
                      BlackScholesModel.price option marketData in
                    mkOutcome 0 (printResult result args) EmptyString
                end
            end
        end
  end.

End Library.

End main_cpp.

(** ** The specification's formulas

    These definitions follow the words of the specification, not the code;
    the theorems below compare the code with them.  The cumulative normal
    function [N] and the density [phi] are parameters of the formulas. *)

Module Spec.
Import core.

(** Invariants of the two input types (section 3). *)
Definition valid_Option (o : Option) : Prop :=
  0 < getStrike o /\ 0 <= getTimeToExpiration o.

Definition valid_MarketData (m : MarketData) : Prop :=
  0 < getSpot m /\ 0 <= getVolatility m.

(** Regime 1: intrinsic value and the step delta. *)
Definition intrinsic (type : OptionType) (spot strike : R) : R :=
  match type with
  | Call => Rmax (spot - strike) 0
  | Put => Rmax (strike - spot) 0
  end.

Definition step_delta (type : OptionType) (spot strike : R) : R :=
  match type with
  | Call => if Rgt_dec spot strike then 1 else 0
  | Put => if Rlt_dec spot strike then - 1 else 0
  end.

(** Regime 2: the strike is discounted first. *)
Definition discount (rate time : R) : R := exp (- rate * time).

(** Regime 3: the auxiliary quantities and the closed form. *)
Definition d1 (spot strike rate volatility time : R) : R :=
  (ln (spot / strike) + (rate + 0.5 * volatility ^ 2) * time)
  / (volatility * sqrt time).

Definition d2 (spot strike rate volatility time : R) : R :=
  d1 spot strike rate volatility time - volatility * sqrt time.

Definition closed_form (N : R -> R) (type : OptionType)
  (spot strike rate volatility time : R) : R :=
  let d1 := d1 spot strike rate volatility time in
  let d2 := d2 spot strike rate volatility time in
  match type with
  | Call => spot * N d1 - strike * exp (- rate * time) * N d2
  | Put => strike * exp (- rate * time) * N (- d2) - spot * N (- d1)
  end.

Definition delta_form (N : R -> R) (type : OptionType) (d1 : R) : R :=
  match type with Call => N d1 | Put => N d1 - 1 end.

Definition gamma_form (phi : R -> R) (spot volatility time d1 : R) : R :=
  phi d1 / (spot * volatility * sqrt time).

Definition vega_form (phi : R -> R) (spot time d1 : R) : R :=
  spot * phi d1 * sqrt time.

Definition theta_form (N phi : R -> R) (type : OptionType)
  (spot strike rate volatility time d1 d2 : R) : R :=
  let first := - spot * phi d1 * volatility / (2 * sqrt time) in
  match type with
  | Call => first - rate * strike * discount rate time * N d2
  | Put => first + rate * strike * discount rate time * N (- d2)
  end.

Definition rho_form (N : R -> R) (type : OptionType)
  (strike rate time d2 : R) : R :=
  match type with
  | Call => strike * time * discount rate time * N d2
  | Put => - strike * time * discount rate time * N (- d2)
  end.

(** The exact standard-normal distribution.  [gauss] is the density; the
    density is even and has total mass 1, so the mass below 0 is 1/2 and
    the distribution function at x is 1/2 plus the integral of the density
    from 0 to x. *)
Definition gauss (t : R) : R := exp (- (t * t) / 2) / sqrt (2 * PI).

Definition gauss_integrable (a b : R) : Riemann_integrable gauss a b.
Proof.
  assert (C : continuity gauss) by (unfold gauss; reg).
  destruct (Rle_dec a b) as [H | H].
  - apply continuity_implies_RiemannInt; [exact H |].
    intros x _; apply C.
  - apply RiemannInt_P1, continuity_implies_RiemannInt; [lra |].
    intros x _; apply C.
Defined.

Definition Phi (x : R) : R := 1 / 2 + RiemannInt (gauss_integrable 0 x).

End Spec.

(** ** The engine in double precision

    [normalCDF], [calculateD1], [calculateD2], [calculateCallPrice],
    [calculatePutPrice] and [price] over binary64 numbers: every [+], [-],
    [*], [/] and [std::sqrt] is the IEEE 754 operation, rounded to nearest,
    and the comparisons are those of the hardware.  A decimal literal
    denotes the binary64 number nearest to it, as in the source and as
    [std::stod] reads it.  [std::exp] and [std::log] belong to the C
    library and are parameters.  [price] returns the [price] member of its
    result, the only member it writes. *)

Module binary64.
Local Open Scope float_scope.

(** [std::max(a, b)] is [(a < b) ? b : a]. *)
Definition std_max (a b : float) : float := if a <? b then b else a.

Record Option : Set := mkOption {
  getType : core.OptionType;
  getStrike : float;
  getTimeToExpiration : float
}.

Definition isCall (o : Option) : bool :=
  match getType o with core.Call => true | core.Put => false end.

Record MarketData : Set := mkMarketData {
  getSpot : float;
  getRiskFreeRate : float;
  getVolatility : float
}.

Definition a1 : float := 0.254829592.
Definition a2 : float := -0.284496736.
Definition a3 : float := 1.421413741.
Definition a4 : float := -1.453152027.
Definition a5 : float := 1.061405429.
Definition p : float := 0.3275911.

Section Library.
Variables (std_exp std_log : float -> float).

(** [sign] is the [int] of the source, converted to [double] in the last
    line. *)
Definition normalCDF (x : float) : float :=
  let '(sign, x) := if x <? 0 then (-1, - x) else (1, x) in
  let t := 1 / (1 + p * x) in
  let y := 1 - (((((a5 * t + a4) * t) + a3) * t + a2) * t + a1) * t
               * std_exp (- x * x) in
  0.5 * (1 + sign * y).

Definition calculateD1 (S K r sigma T : float) : float :=
  if (S <=? 0) || (K <=? 0) || (T <=? 0) || (sigma <=? 0) then 0
  else
    let numerator := std_log (S / K) + (r + 0.5 * sigma * sigma) * T in
    let denominator := sigma * PrimFloat.sqrt T in
    numerator / denominator.

Definition calculateD2 (d1 sigma T : float) : float :=
  d1 - sigma * PrimFloat.sqrt T.

Definition calculateCallPrice (S K r T d1 d2 : float) : float :=
  let N_d1 := normalCDF d1 in
  let N_d2 := normalCDF d2 in
  let discountFactor := std_exp (- r * T) in
  S * N_d1 - K * discountFactor * N_d2.

Definition calculatePutPrice (S K r T d1 d2 : float) : float :=
  let N_minus_d1 := normalCDF (- d1) in
  let N_minus_d2 := normalCDF (- d2) in
  let discountFactor := std_exp (- r * T) in
  K * discountFactor * N_minus_d2 - S * N_minus_d1.

Definition price (option : Option) (marketData : MarketData) : float :=
  let S := getSpot marketData in
  let K := getStrike option in
  let r := getRiskFreeRate marketData in
  let sigma := getVolatility marketData in
  let T := getTimeToExpiration option in
  if T =? 0 then
    if isCall option then std_max (S - K) 0 else std_max (K - S) 0
  else if sigma =? 0 then
    let discountFactor := std_exp (- r * T) in
    if isCall option
    then std_max (S - K * discountFactor) 0
    else std_max (K * discountFactor - S) 0
  else
    let d1 := calculateD1 S K r sigma T in
    let d2 := calculateD2 d1 sigma T in
    if isCall option
    then calculateCallPrice S K r T d1 d2
    else calculatePutPrice S K r T d1 d2.

End Library.




End binary64.

Import core BlackScholesModel.

(** ** Auxiliary functions of the analysis

    [normalCDF] is 1 - e(x)/2 on the non-negative axis and e(-x)/2 on the
    negative one, where e(x) = P(t(x)) exp(-x^2), t(x) = 1/(1 + p x) and P
    is the quintic of the source; [dPt] is the derivative of P, [Qt] is
    t^2 P'(t) with derivative [dQt], and -exp(-x^2) [kx] x is the derivative
    of e. *)

Definition Pt (t : R) : R :=
  (((((a5 * t + a4) * t) + a3) * t + a2) * t + a1) * t.

Definition dPt (t : R) : R :=
  a1 + 2 * a2 * t + 3 * a3 * t ^ 2 + 4 * a4 * t ^ 3 + 5 * a5 * t ^ 4.



Definition tx (x : R) : R := 1 / (1 + p * x).

Definition erfc_approx (x : R) : R := Pt (tx x) * exp (- x * x).








(** ** Boolean comparisons *)

Lemma Rltb_true (a b : R) : a < b -> Rltb a b = true.
Proof. intros H; unfold Rltb; destruct (Rlt_dec a b); [reflexivity | contradiction]. Qed.

Lemma Rltb_false (a b : R) : b <= a -> Rltb a b = false.
Proof. intros H; unfold Rltb; destruct (Rlt_dec a b); [lra | reflexivity]. Qed.

Lemma Rleb_false (a b : R) : b < a -> Rleb a b = false.
Proof. intros H; unfold Rleb; destruct (Rle_dec a b); [lra | reflexivity]. Qed.

Lemma Reqb_true (a b : R) : a = b -> Reqb a b = true.
Proof. intros H; unfold Reqb; destruct (Req_dec_T a b); [reflexivity | contradiction]. Qed.

Lemma Reqb_false (a b : R) : a <> b -> Reqb a b = false.
Proof. intros H; unfold Reqb; destruct (Req_dec_T a b); [contradiction | reflexivity]. Qed.

Lemma std_max_Rmax (a b : R) : std_max a b = Rmax a b.
Proof.
  unfold std_max, Rmax, Rltb.
  destruct (Rlt_dec a b), (Rle_dec a b); try reflexivity; lra.
Qed.

(** ** The constructors establish the invariants *)

Lemma Option_ctor_inr (type : OptionType) (K T : R) (o : Option) :
  Option_ctor type K T = inr o ->
  o = mkOption type K T /\ Spec.valid_Option o.
Proof.
  unfold Option_ctor, Spec.valid_Option, Rleb, Rltb.
  destruct (Rle_dec K 0), (Rlt_dec T 0); simpl; try discriminate.
  intros [= <-]; simpl; split; [reflexivity | lra].
Qed.

Lemma MarketData_ctor_inr (S r sigma : R) (m : MarketData) :
  MarketData_ctor S r sigma = inr m ->
  m = mkMarketData S r sigma /\ Spec.valid_MarketData m.
Proof.
  unfold MarketData_ctor, Spec.valid_MarketData, Rleb, Rltb.
  destruct (Rle_dec S 0), (Rlt_dec sigma 0); simpl; try discriminate.
  intros [= <-]; simpl; split; [reflexivity | lra].
Qed.

Lemma Option_ctor_valid (type : OptionType) (K T : R) :
  0 < K -> 0 <= T -> Option_ctor type K T = inr (mkOption type K T).
Proof.
  intros HK HT; unfold Option_ctor.
  rewrite (Rleb_false K 0 HK), (Rltb_false T 0 HT); reflexivity.
Qed.

Lemma MarketData_ctor_valid (S r sigma : R) :
  0 < S -> 0 <= sigma ->
  MarketData_ctor S r sigma = inr (mkMarketData S r sigma).
Proof.
  intros HS Hs; unfold MarketData_ctor.
  rewrite (Rleb_false S 0 HS), (Rltb_false sigma 0 Hs); reflexivity.
Qed.

(** ** The three regimes of [price] and [priceWithGreeks] *)

Lemma step_choice_gt (a b : R) :
  (if Rgtb a b then 1 else 0) = (if Rgt_dec a b then 1 else 0).
Proof.
  unfold Rgtb, Rltb; destruct (Rlt_dec b a), (Rgt_dec a b);
    try reflexivity; unfold Rgt in *; contradiction.
Qed.

Lemma step_choice_lt (a b : R) :
  (if Rltb a b then - 1 else 0) = (if Rlt_dec a b then - 1 else 0).
Proof. unfold Rltb; destruct (Rlt_dec a b); reflexivity. Qed.

Section Regimes.
Variables (option : Option) (marketData : MarketData).
Let S := getSpot marketData.
Let K := getStrike option.
Let r := getRiskFreeRate marketData.
Let sigma := getVolatility marketData.
Let T := getTimeToExpiration option.

Lemma price_at_expiration :
  T = 0 ->
  BlackScholesModel.price option marketData
  = mkPricingResult (Spec.intrinsic (getType option) S K) 0 0 0 0 0.
Proof.
  intros HT; unfold BlackScholesModel.price; fold T; rewrite (Reqb_true _ _ HT).
  unfold isCall, Spec.intrinsic; fold S K.
  destruct (getType option); unfold set_price; simpl;
    rewrite std_max_Rmax; reflexivity.
Qed.

Lemma priceWithGreeks_at_expiration :
  T = 0 ->
  priceWithGreeks option marketData
  = mkPricingResult (Spec.intrinsic (getType option) S K)
      (Spec.step_delta (getType option) S K) 0 0 0 0.
Proof.
  intros HT; unfold priceWithGreeks; fold T; rewrite (Reqb_true _ _ HT).
  unfold isCall, Spec.intrinsic, Spec.step_delta; fold S K.
  destruct (getType option); unfold set_price, set_delta; simpl;
    rewrite std_max_Rmax, ?step_choice_gt, ?step_choice_lt; reflexivity.
Qed.

Lemma price_zero_volatility :
  T <> 0 -> sigma = 0 ->
  BlackScholesModel.price option marketData
  = mkPricingResult
      (Spec.intrinsic (getType option) S (K * Spec.discount r T)) 0 0 0 0 0.
Proof.
  intros HT Hs; unfold BlackScholesModel.price; fold T sigma.
  rewrite (Reqb_false _ _ HT), (Reqb_true _ _ Hs).
  unfold isCall, Spec.intrinsic, Spec.discount; fold S K r.
  destruct (getType option); unfold set_price; simpl;
    rewrite std_max_Rmax; reflexivity.
Qed.

Lemma priceWithGreeks_zero_volatility :
  T <> 0 -> sigma = 0 ->
  priceWithGreeks option marketData
  = mkPricingResult
      (Spec.intrinsic (getType option) S (K * Spec.discount r T))
      (Spec.step_delta (getType option) S (K * Spec.discount r T)) 0 0 0 0.
Proof.
  intros HT Hs; unfold priceWithGreeks; fold T sigma.
  rewrite (Reqb_false _ _ HT), (Reqb_true _ _ Hs).
  unfold isCall, Spec.intrinsic, Spec.step_delta, Spec.discount; fold S K r.
  destruct (getType option); unfold set_price, set_delta; simpl;
    rewrite std_max_Rmax, ?step_choice_gt, ?step_choice_lt; reflexivity.
Qed.

(** Past the two early returns of a valid request every argument of
    [calculateD1] is positive, so its guard is false and the quotient is
    returned. *)
Lemma calculateD1_guard_false :
  0 < S -> 0 < K -> 0 < T -> 0 < sigma ->
  calculateD1_guard S K sigma T = false.
Proof.
  intros HS HK HT Hs; unfold calculateD1_guard.
  rewrite !Rleb_false by assumption; reflexivity.
Qed.

Lemma calculateD1_general :
  0 < S -> 0 < K -> 0 < T -> 0 < sigma ->
  calculateD1 S K r sigma T = Spec.d1 S K r sigma T.
Proof.
  intros HS HK HT Hs; unfold calculateD1.
  rewrite calculateD1_guard_false by assumption.
  unfold Spec.d1; cbv zeta. f_equal. f_equal. f_equal. ring.
Qed.

Lemma calculateD2_general :
  0 < S -> 0 < K -> 0 < T -> 0 < sigma ->
  calculateD2 (calculateD1 S K r sigma T) sigma T = Spec.d2 S K r sigma T.
Proof.
  intros HS HK HT Hs; unfold calculateD2, Spec.d2.
  rewrite calculateD1_general by assumption; reflexivity.
Qed.

Lemma price_general :
  0 < S -> 0 < K -> 0 < T -> 0 < sigma ->
  BlackScholesModel.price option marketData
  = mkPricingResult
      (Spec.closed_form normalCDF (getType option) S K r sigma T) 0 0 0 0 0.
Proof.
  intros HS HK HT Hs; unfold BlackScholesModel.price; fold T sigma S K r.
  rewrite (Reqb_false T 0), (Reqb_false sigma 0) by lra.
  cbv zeta. rewrite calculateD2_general, calculateD1_general by assumption.
  unfold isCall, Spec.closed_form, calculateCallPrice, calculatePutPrice.
  destruct (getType option); reflexivity.
Qed.

Lemma priceWithGreeks_general :
  0 < S -> 0 < K -> 0 < T -> 0 < sigma ->
  priceWithGreeks option marketData
  = mkPricingResult
      (Spec.closed_form normalCDF (getType option) S K r sigma T)
      (Spec.delta_form normalCDF (getType option) (Spec.d1 S K r sigma T))
      (Spec.gamma_form normalPDF S sigma T (Spec.d1 S K r sigma T))
      (Spec.vega_form normalPDF S T (Spec.d1 S K r sigma T))
      (Spec.theta_form normalCDF normalPDF (getType option) S K r sigma T
         (Spec.d1 S K r sigma T) (Spec.d2 S K r sigma T))
      (Spec.rho_form normalCDF (getType option) K r T
         (Spec.d2 S K r sigma T)).
Proof.
  intros HS HK HT Hs; unfold priceWithGreeks; fold T sigma S K r.
  rewrite (Reqb_false T 0), (Reqb_false sigma 0) by lra.
  cbv zeta. rewrite calculateD2_general, calculateD1_general by assumption.
  unfold calculateGamma, calculateVega, calculateTheta, calculateRho.
  rewrite !Rleb_false by assumption. simpl orb. cbv iota zeta.
  unfold isCall, Spec.closed_form, calculateCallPrice, calculatePutPrice,
    calculateDelta, Spec.delta_form, Spec.gamma_form, Spec.vega_form,
    Spec.theta_form, Spec.rho_form, Spec.discount.
  destruct (getType option); reflexivity.
Qed.

End Regimes.

(** ** Regime claims *)

(** C2.  For a valid pair with timeToExpiration == 0, whatever the
    volatility, [price] returns the intrinsic value, max(spot - strike, 0)
    for a call and max(strike - spot, 0) for a put, and [priceWithGreeks]
    returns that price with delta 1.0 (call, spot > strike) or -1.0 (put,
    spot < strike), else 0.0, and gamma = vega = theta = rho = 0.0. *)
Theorem at_expiration_intrinsic (o : Option) (m : MarketData) :
  Spec.valid_Option o -> Spec.valid_MarketData m ->
  getTimeToExpiration o = 0 ->
  core.price (BlackScholesModel.price o m)
  = Spec.intrinsic (getType o) (getSpot m) (getStrike o)
  /\ priceWithGreeks o m
  = mkPricingResult
      (Spec.intrinsic (getType o) (getSpot m) (getStrike o))
      (Spec.step_delta (getType o) (getSpot m) (getStrike o)) 0 0 0 0.
Proof.
  intros _ _ HT.
  rewrite price_at_expiration, priceWithGreeks_at_expiration by assumption.
  split; reflexivity.
Qed.

Lemma at_expiration_intrinsic_witness :
  let o := mkOption Call 100 0 in
  let m := mkMarketData 110 0.05 0.2 in
  core.price (BlackScholesModel.price o m) = Spec.intrinsic Call 110 100
  /\ priceWithGreeks o m
  = mkPricingResult (Spec.intrinsic Call 110 100)
      (Spec.step_delta Call 110 100) 0 0 0 0.
Proof.
  intros o m.
  apply (at_expiration_intrinsic o m);
    unfold Spec.valid_Option, Spec.valid_MarketData; simpl;
    first [reflexivity | lra].
Defined.

(** C3.  For a valid pair with timeToExpiration > 0 and volatility == 0,
    [price] returns the discounted intrinsic value: with
    discount = exp(-rate*time), max(spot - strike*discount, 0) for a call
    and max(strike*discount - spot, 0) for a put; [priceWithGreeks] returns
    that price with delta 1.0 (call, spot > strike*discount) or -1.0 (put,
    spot < strike*discount), else 0.0, and gamma, vega, theta, rho all
    0.0. *)
Theorem zero_volatility_discounted_intrinsic (o : Option) (m : MarketData) :
  Spec.valid_Option o -> Spec.valid_MarketData m ->
  0 < getTimeToExpiration o -> getVolatility m = 0 ->
  let discount :=
    Spec.discount (getRiskFreeRate m) (getTimeToExpiration o) in
  core.price (BlackScholesModel.price o m)
  = Spec.intrinsic (getType o) (getSpot m) (getStrike o * discount)
  /\ priceWithGreeks o m
  = mkPricingResult
      (Spec.intrinsic (getType o) (getSpot m) (getStrike o * discount))
      (Spec.step_delta (getType o) (getSpot m) (getStrike o * discount))
      0 0 0 0.
Proof.
  intros _ _ HT Hs discount; subst discount.
  rewrite price_zero_volatility, priceWithGreeks_zero_volatility
    by (assumption || lra).
  split; reflexivity.
Qed.

Lemma zero_volatility_discounted_intrinsic_witness :
  let o := mkOption Call 100 0.5 in
  let m := mkMarketData 110 0.05 0 in
  core.price (BlackScholesModel.price o m)
  = Spec.intrinsic Call 110 (100 * Spec.discount 0.05 0.5)
  /\ priceWithGreeks o m
  = mkPricingResult
      (Spec.intrinsic Call 110 (100 * Spec.discount 0.05 0.5))
      (Spec.step_delta Call 110 (100 * Spec.discount 0.05 0.5)) 0 0 0 0.
Proof.
  intros o m.
  apply (zero_volatility_discounted_intrinsic o m);
    unfold Spec.valid_Option, Spec.valid_MarketData; simpl;
    first [reflexivity | lra].
Defined.

(** C10.  Whatever pair it is given, valid or not, [price] writes only the
    price field of the default-initialised result: delta, gamma, vega,
    theta and rho stay 0.0, so [hasGreeks] is false on every result of
    [price], in each of the three regimes. *)
Theorem price_leaves_greeks_default (o : Option) (m : MarketData) :
  let res := BlackScholesModel.price o m in
  delta res = 0 /\ gamma res = 0 /\ vega res = 0 /\ theta res = 0
  /\ rho res = 0 /\ hasGreeks res = false.
Proof.
  assert (H0 : Rneqb 0 0 = false)
    by (unfold Rneqb; rewrite Reqb_true; reflexivity).
  unfold BlackScholesModel.price.
  destruct (Reqb (getTimeToExpiration o) 0);
    [| destruct (Reqb (getVolatility m) 0)];
    destruct (isCall o); unfold hasGreeks; simpl; rewrite H0;
    repeat split; reflexivity.
Qed.

(** The result next to the recorded calls is the result of the function
    itself, for every pair. *)
Lemma traced_price_result (o : Option) (m : MarketData) :
  snd (traced.price o m) = BlackScholesModel.price o m.
Proof.
  unfold traced.price, BlackScholesModel.price.
  destruct (Reqb (getTimeToExpiration o) 0);
    [| destruct (Reqb (getVolatility m) 0)]; reflexivity.
Qed.

Lemma traced_priceWithGreeks_result (o : Option) (m : MarketData) :
  snd (traced.priceWithGreeks o m) = priceWithGreeks o m.
Proof.
  unfold traced.priceWithGreeks, priceWithGreeks.
  destruct (Reqb (getTimeToExpiration o) 0);
    [| destruct (Reqb (getVolatility m) 0)]; reflexivity.
Qed.

(** Both functions make the same calls of [calculateD1]: none on the two
    early returns, one with the five inputs past them. *)
Lemma traced_calls (o : Option) (m : MarketData) :
  fst (traced.priceWithGreeks o m) = fst (traced.price o m)
  /\ fst (traced.price o m)
     = if Reqb (getTimeToExpiration o) 0 then []
       else if Reqb (getVolatility m) 0 then []
       else [traced.mkD1_call (getSpot m) (getStrike o) (getRiskFreeRate m)
               (getVolatility m) (getTimeToExpiration o)].
Proof.
  unfold traced.priceWithGreeks, traced.price.
  destruct (Reqb (getTimeToExpiration o) 0);
    [| destruct (Reqb (getVolatility m) 0)]; split; reflexivity.
Qed.

(** C7.  The invalid-argument condition is raised at construction and only
    there: the [Option] constructor fails exactly when strike <= 0 or
    timeToExpiration < 0, the [MarketData] constructor exactly when
    spot <= 0 or volatility < 0.  When both invariants hold, a [price] or
    [priceWithGreeks] request returns the result of the engine, and no call
    of [calculateD1] that [price] or [priceWithGreeks] makes on that pair
    takes the defensive return of 0.0: the two early returns come first
    and make no call, and past them all of spot, strike, time and
    volatility are positive. *)
Theorem errors_only_at_construction
  (type : OptionType) (K T S r sigma : R) :
  (Option_ctor type K T = inl invalid_argument <-> K <= 0 \/ T < 0)
  /\ (MarketData_ctor S r sigma = inl invalid_argument
      <-> S <= 0 \/ sigma < 0)
  /\ (0 < K -> 0 <= T -> 0 < S -> 0 <= sigma ->
      let o := mkOption type K T in
      let m := mkMarketData S r sigma in
      cli.price_request type K T S r sigma
      = inr (BlackScholesModel.price o m)
      /\ cli.priceWithGreeks_request type K T S r sigma
         = inr (priceWithGreeks o m)
      /\ snd (traced.price o m) = BlackScholesModel.price o m
      /\ snd (traced.priceWithGreeks o m) = priceWithGreeks o m
      /\ Forall (fun c => traced.guard_triggered c = false)
           (fst (traced.price o m))
      /\ Forall (fun c => traced.guard_triggered c = false)
           (fst (traced.priceWithGreeks o m))).
Proof.
  split; [| split].
  - unfold Option_ctor, Rleb, Rltb.
    destruct (Rle_dec K 0), (Rlt_dec T 0); simpl; split; intros H;
      try reflexivity; try discriminate; try lra; auto.
  - unfold MarketData_ctor, Rleb, Rltb.
    destruct (Rle_dec S 0), (Rlt_dec sigma 0); simpl; split; intros H;
      try reflexivity; try discriminate; try lra; auto.
  - intros HK HT HS Hs o m.
    unfold cli.price_request, cli.priceWithGreeks_request.
    rewrite Option_ctor_valid, MarketData_ctor_valid by assumption.
    fold o m.
    rewrite traced_price_result, traced_priceWithGreeks_result.
    destruct (traced_calls o m) as [E1 E2].
    assert (HF : Forall (fun c => traced.guard_triggered c = false)
                   (fst (traced.price o m))).
    { rewrite E2; subst o m; simpl.
      unfold Reqb.
      destruct (Req_dec_T T 0) as [HT0 | HT0]; [constructor |].
      destruct (Req_dec_T sigma 0) as [Hs0 | Hs0]; constructor;
        [| constructor].
      unfold traced.guard_triggered; simpl.
      apply (calculateD1_guard_false (mkOption type K T)
               (mkMarketData S r sigma)); simpl; lra. }
    repeat split; try reflexivity; [exact HF | rewrite E1; exact HF].
Qed.

Lemma errors_only_at_construction_witness :
  cli.price_request Call 105 0.5 100 0.05 0.2
  = inr (BlackScholesModel.price (mkOption Call 105 0.5)
           (mkMarketData 100 0.05 0.2))
  /\ Forall (fun c => traced.guard_triggered c = false)
       (fst (traced.price (mkOption Call 105 0.5)
               (mkMarketData 100 0.05 0.2))).
Proof.
  destruct (errors_only_at_construction Call 105 0.5 100 0.05 0.2)
    as (_ & _ & H).
  destruct H as (H1 & _ & _ & _ & H5 & _); try lra.
  split; [exact H1 | exact H5].
Defined.

(** ** The shape of [normalCDF] *)

Lemma normalCDF_nonneg_arg (x : R) :
  0 <= x -> normalCDF x = 1 - erfc_approx x / 2.
Proof.
  intros Hx; unfold normalCDF, erfc_approx, Pt, tx.
  rewrite (Rltb_false x 0 Hx); simpl IZR; lra.
Qed.

Lemma normalCDF_neg_arg (x : R) :
  x < 0 -> normalCDF x = erfc_approx (- x) / 2.
Proof.
  intros Hx; unfold normalCDF, erfc_approx, Pt, tx.
  rewrite (Rltb_true x 0 Hx); simpl IZR; lra.
Qed.

Lemma dPt_positive (t : R) : 0.2 < dPt t.
Proof. unfold dPt, a1, a2, a3, a4, a5; nra. Qed.

(** The divided difference of [Pt] is a Boole average of [dPt]. *)
Lemma Pt_divided_difference (s t : R) :
  Pt t - Pt s
  = (t - s) * ((7 * dPt s + 32 * dPt ((3 * s + t) / 4)
                + 12 * dPt ((s + t) / 2) + 32 * dPt ((s + 3 * t) / 4)
                + 7 * dPt t) / 90).
Proof. unfold Pt, dPt; field. Qed.

Lemma Pt_increasing (s t : R) : s < t -> Pt s < Pt t.
Proof.
  intros Hst.
  pose proof (Pt_divided_difference s t) as E.
  pose proof (dPt_positive s). pose proof (dPt_positive t).
  pose proof (dPt_positive ((3 * s + t) / 4)).
  pose proof (dPt_positive ((s + t) / 2)).
  pose proof (dPt_positive ((s + 3 * t) / 4)).
  nra.
Qed.

Lemma Pt_0 : Pt 0 = 0.
Proof. unfold Pt; ring. Qed.

Lemma Pt_1 : Pt 1 = 0.999999999.
Proof. unfold Pt, a1, a2, a3, a4, a5; lra. Qed.

Lemma tx_range (x : R) : 0 <= x -> 0 < tx x <= 1.
Proof.
  intros Hx; unfold tx, p.
  assert (H : 0 < 1 + 0.3275911 * x) by lra.
  assert (H1 : / (1 + 0.3275911 * x) <= / 1)
    by (apply Rinv_le_contravar; lra).
  rewrite Rinv_1 in H1.
  pose proof (Rinv_0_lt_compat _ H).
  unfold Rdiv; rewrite Rmult_1_l; split; assumption.
Qed.

Lemma tx_decreasing (x y : R) : 0 <= x -> x < y -> tx y < tx x.
Proof.
  intros Hx Hxy; unfold tx, p.
  unfold Rdiv; rewrite !Rmult_1_l.
  apply Rinv_lt_contravar; [ nra | lra ].
Qed.

Lemma tx_0 : tx 0 = 1.
Proof. unfold tx; field. Qed.


Lemma erfc_approx_pos (x : R) : 0 <= x -> 0 < erfc_approx x.
Proof.
  intros Hx; unfold erfc_approx.
  apply Rmult_lt_0_compat; [| apply exp_pos].
  rewrite <- Pt_0; apply Pt_increasing, tx_range, Hx.
Qed.

Lemma Pt_tx_le_1 (x : R) : 0 <= x -> Pt (tx x) <= 0.999999999.
Proof.
  intros Hx; rewrite <- Pt_1.
  destruct (tx_range x Hx) as [_ [H | ->]]; [| lra].
  left; apply Pt_increasing, H.
Qed.

Lemma exp_neg_sq_le_1 (x : R) : exp (- x * x) <= 1.
Proof.
  rewrite <- exp_0.
  destruct (Req_dec x 0) as [-> | Hx].
  - right; f_equal; ring.
  - left; apply exp_increasing; nra.
Qed.

Lemma erfc_approx_lt_1 (x : R) : 0 <= x -> erfc_approx x < 1.
Proof.
  intros Hx; unfold erfc_approx.
  pose proof (Pt_tx_le_1 x Hx). pose proof (exp_neg_sq_le_1 x).
  pose proof (exp_pos (- x * x)).
  assert (0 < Pt (tx x))
    by (rewrite <- Pt_0; apply Pt_increasing, tx_range, Hx).
  nra.
Qed.

Lemma erfc_approx_decreasing (x y : R) :
  0 <= x -> x < y -> erfc_approx y < erfc_approx x.
Proof.
  intros Hx Hxy; unfold erfc_approx.
  assert (HP : Pt (tx y) < Pt (tx x))
    by (apply Pt_increasing, tx_decreasing; assumption).
  assert (HP0 : 0 < Pt (tx y))
    by (rewrite <- Pt_0; apply Pt_increasing, tx_range; lra).
  assert (He : exp (- y * y) < exp (- x * x))
    by (apply exp_increasing; nra).
  pose proof (exp_pos (- y * y)).
  nra.
Qed.

Lemma erfc_approx_0 : erfc_approx 0 = 0.999999999.
Proof.
  unfold erfc_approx. rewrite tx_0, Pt_1.
  replace (- 0 * 0) with 0 by ring. rewrite exp_0. lra.
Qed.

Lemma normalCDF_0 : normalCDF 0 = 0.5000000005.
Proof. rewrite normalCDF_nonneg_arg, erfc_approx_0 by lra. lra. Qed.

(** [normalCDF] is symmetric about (0, 1/2) except at the origin itself,
    where the five coefficients add up to 0.999999999 instead of 1. *)
Lemma normalCDF_reflect (x : R) :
  x <> 0 -> normalCDF x + normalCDF (- x) = 1.
Proof.
  intros Hx.
  destruct (Rlt_le_dec x 0) as [H | H].
  - rewrite (normalCDF_neg_arg x), (normalCDF_nonneg_arg (- x)) by lra. lra.
  - rewrite (normalCDF_nonneg_arg x), (normalCDF_neg_arg (- x)) by lra.
    rewrite Ropp_involutive. lra.
Qed.

Lemma normalCDF_increasing (x y : R) : x < y -> normalCDF x < normalCDF y.
Proof.
  intros Hxy.
  destruct (Rlt_le_dec x 0) as [Hx | Hx]; destruct (Rlt_le_dec y 0) as [Hy | Hy].
  - rewrite !normalCDF_neg_arg by assumption.
    pose proof (erfc_approx_decreasing (- y) (- x)); lra.
  - rewrite normalCDF_neg_arg, normalCDF_nonneg_arg by assumption.
    pose proof (erfc_approx_lt_1 (- x)). pose proof (erfc_approx_lt_1 y). lra.
  - lra.
  - rewrite !normalCDF_nonneg_arg by lra.
    pose proof (erfc_approx_decreasing x y); lra.
Qed.

Lemma normalCDF_monotone (x y : R) : x <= y -> normalCDF x <= normalCDF y.
Proof.
  intros [H | ->]; [left; apply normalCDF_increasing, H | right; reflexivity].
Qed.


(** ** Two weighted monotonicity properties *)





(** ** The price per unit of discounted strike *)












Section Normalised.
Variables (S K r T : R).
Hypotheses (HS : 0 < S) (HK : 0 < K) (HT : 0 < T).

(** Forward log-moneyness and discounted strike. *)
Let m := ln (S / K) + r * T.
Let A := K * exp (- r * T).










End Normalised.

(** ** Non-negativity of the price *)





(** ** Put-call parity *)






Section Parity.
Variables (K T S r sigma : R).



End Parity.




(** ** [normalCDF] against the exact distribution function *)

Lemma sqrt_2PI_lower : 2.449 < sqrt (2 * PI).
Proof.
  pose proof PI2_3_2 as HPI.
  replace 2.449 with (sqrt (2.449 * 2.449))
    by (rewrite sqrt_square; lra).
  apply sqrt_lt_1_alt; lra.
Qed.

Lemma gauss_upper (t : R) : Spec.gauss t <= 0.4084.
Proof.
  unfold Spec.gauss.
  pose proof sqrt_2PI_lower as Hq.
  assert (He : exp (- (t * t) / 2) <= 1).
  { rewrite <- exp_0. destruct (Req_dec t 0) as [-> | Ht].
    - right; f_equal; field.
    - left; apply exp_increasing; nra. }
  pose proof (exp_pos (- (t * t) / 2)) as Hp.
  apply Rle_trans with (1 / sqrt (2 * PI)).
  - unfold Rdiv; apply Rmult_le_compat_r; [| exact He].
    left; apply Rinv_0_lt_compat; lra.
  - assert (H : / sqrt (2 * PI) <= / 2.449)
      by (apply Rinv_le_contravar; lra).
    lra.
Qed.

Lemma Phi_upper (x : R) : 0 <= x -> Spec.Phi x <= 1 / 2 + 0.4084 * x.
Proof.
  intros Hx; unfold Spec.Phi.
  pose proof (RiemannInt_P19 (Spec.gauss_integrable 0 x)
                (RiemannInt_P14 0 x 0.4084) Hx) as H.
  rewrite RiemannInt_P15 in H.
  assert (Hle : forall t, 0 < t < x -> Spec.gauss t <= fct_cte 0.4084 t)
    by (intros t _; apply gauss_upper).
  specialize (H Hle). lra.
Qed.

Lemma exp_quarter_upper : exp (- (1 / 4)) <= 0.8.
Proof.
  rewrite exp_Ropp.
  assert (H : 1 + 1 / 4 < exp (1 / 4)) by (apply exp_ineq1; lra).
  assert (H' : / exp (1 / 4) <= / (1 + 1 / 4))
    by (apply Rinv_le_contravar; lra).
  lra.
Qed.

Lemma normalCDF_half_lower : 0.75 < normalCDF (1 / 2).
Proof.
  rewrite normalCDF_nonneg_arg by lra.
  unfold erfc_approx.
  replace (- (1 / 2) * (1 / 2)) with (- (1 / 4)) by lra.
  pose proof exp_quarter_upper as He.
  pose proof (exp_pos (- (1 / 4))) as Hp.
  assert (HP : Pt (tx (1 / 2)) < 0.62).
  { apply Rlt_trans with (Pt 0.86).
    - apply Pt_increasing. unfold tx, p.
      apply Rmult_lt_reg_r with (1 + 0.3275911 * (1 / 2)); [lra |].
      unfold Rdiv; rewrite Rmult_assoc, Rinv_l by lra. lra.
    - unfold Pt, a1, a2, a3, a4, a5; lra. }
  assert (HP0 : 0 < Pt (tx (1 / 2)))
    by (rewrite <- Pt_0; apply Pt_increasing, tx_range; lra).
  nra.
Qed.

(** C8 fails on the code.  At x = 0.5 [normalCDF] returns more than 0.75
    while the exact standard-normal distribution function is below 0.7043
    there: the two differ by more than 0.04, not by 7.5e-8.  ([normalCDF]
    feeds x itself, not x/sqrt(2), to the Abramowitz-Stegun polynomial for
    the error function.) *)
Theorem normalCDF_far_from_Phi :
  0.04 < normalCDF (1 / 2) - Spec.Phi (1 / 2).
Proof.
  pose proof normalCDF_half_lower as H1.
  assert (H2 : Spec.Phi (1 / 2) <= 1 / 2 + 0.4084 * (1 / 2))
    by (apply Phi_upper; lra).
  lra.
Qed.

Lemma Phi_lower_neg (x : R) : 0 <= x -> 1 / 2 - 0.4084 * x <= Spec.Phi (- x).
Proof.
  intros Hx; unfold Spec.Phi.
  rewrite (RiemannInt_P8 (Spec.gauss_integrable 0 (- x))
             (Spec.gauss_integrable (- x) 0)).
  assert (Hx' : - x <= 0) by lra.
  pose proof (RiemannInt_P19 (Spec.gauss_integrable (- x) 0)
                (RiemannInt_P14 (- x) 0 0.4084) Hx') as H.
  rewrite RiemannInt_P15 in H.
  assert (Hle : forall t, - x < t < 0 -> Spec.gauss t <= fct_cte 0.4084 t)
    by (intros t _; apply gauss_upper).
  specialize (H Hle). lra.
Qed.

(** The quantities d1 and d2 of the at-the-money request with
    spot = strike = 100, rate 0, volatility 1 and one year to expiration. *)
Lemma d1_at_the_money : Spec.d1 100 100 0 1 1 = 1 / 2.
Proof.
  unfold Spec.d1.
  replace (100 / 100) with 1 by lra.
  rewrite ln_1, sqrt_1.
  replace (0 + (0 + 0.5 * 1 ^ 2) * 1) with (1 / 2) by lra.
  field.
Qed.

Lemma d2_at_the_money : Spec.d2 100 100 0 1 1 = - (1 / 2).
Proof. unfold Spec.d2; rewrite d1_at_the_money, sqrt_1; lra. Qed.

(** C1 fails on the code.  In the general regime [price] evaluates the
    closed form spot*N(d1) - strike*exp(-rate*time)*N(d2) with its own
    [normalCDF] for N, which is not the standard-normal distribution
    function (C8).  For the at-the-money call with spot = strike = 100,
    rate 0, volatility 1 and one year to expiration, d1 = 1/2 and
    d2 = -1/2; [price] returns more than 50, while the closed form with
    the standard-normal distribution function is below 41. *)
Theorem call_price_far_from_exact_closed_form :
  9 < core.price (BlackScholesModel.price (mkOption Call 100 1)
                    (mkMarketData 100 0 1))
      - Spec.closed_form Spec.Phi Call 100 100 0 1 1.
Proof.
  rewrite price_general by (simpl; lra); simpl.
  unfold Spec.closed_form; cbv zeta.
  rewrite d1_at_the_money, d2_at_the_money.
  replace (- 0 * 1) with 0 by ring. rewrite exp_0.
  pose proof normalCDF_half_lower as HN.
  pose proof (normalCDF_reflect (1 / 2) ltac:(lra)) as HR.
  pose proof (Phi_upper (1 / 2) ltac:(lra)) as HU.
  pose proof (Phi_lower_neg (1 / 2) ltac:(lra)) as HL.
  lra.
Qed.

(** C4 fails on the code, by the same defect.  Delta, theta and rho are
    computed from [normalCDF], which is not the standard-normal
    distribution function N of the formulas.  For the at-the-money call
    with spot = strike = 100, rate 0, volatility 1 and one year to
    expiration, d1 = 1/2 and d2 = -1/2: [priceWithGreeks] returns a delta
    above 0.75 where N(d1) is below 0.7043, and a rho below 25 where
    strike*time*discount*N(d2) is above 29.5. *)
Theorem sensitivities_far_from_exact_forms :
  let res := priceWithGreeks (mkOption Call 100 1) (mkMarketData 100 0 1) in
  let d1 := Spec.d1 100 100 0 1 1 in
  let d2 := Spec.d2 100 100 0 1 1 in
  0.04 < delta res - Spec.delta_form Spec.Phi Call d1
  /\ 4 < Spec.rho_form Spec.Phi Call 100 0 1 d2 - rho res.
Proof.
  intros res d1 d2; subst res d1 d2.
  rewrite priceWithGreeks_general by (simpl; lra); simpl.
  unfold Spec.rho_form, Spec.discount.
  rewrite d1_at_the_money, d2_at_the_money.
  replace (- 0 * 1) with 0 by ring. rewrite exp_0.
  pose proof normalCDF_half_lower as HN.
  pose proof (normalCDF_reflect (1 / 2) ltac:(lra)) as HR.
  pose proof (Phi_upper (1 / 2) ltac:(lra)) as HU.
  pose proof (Phi_lower_neg (1 / 2) ltac:(lra)) as HL.
  split; lra.
Qed.

(** ** Monotonicity in volatility *)


































(** ** Further properties of the engine *)


(** X1.  Whatever pair they are given, [priceWithGreeks] and [price] put
    the same value in the price field: asking for the sensitivities never
    changes the price, in any of the three regimes. *)
Theorem priceWithGreeks_same_price (o : Option) (m : MarketData) :
  core.price (priceWithGreeks o m) = core.price (BlackScholesModel.price o m).
Proof.
  unfold priceWithGreeks, BlackScholesModel.price.
  destruct (Reqb (getTimeToExpiration o) 0);
    [| destruct (Reqb (getVolatility m) 0)];
    destruct (isCall o); reflexivity.
Qed.

Lemma normalCDF_lt_1 (x : R) : normalCDF x < 1.
Proof.
  destruct (Rlt_le_dec x 0) as [Hx | Hx].
  - rewrite normalCDF_neg_arg by assumption.
    pose proof (erfc_approx_lt_1 (- x)); lra.
  - rewrite normalCDF_nonneg_arg by assumption.
    pose proof (erfc_approx_pos x Hx); lra.
Qed.

Lemma normalCDF_gt_0 (x : R) : 0 < normalCDF x.
Proof.
  destruct (Rlt_le_dec x 0) as [Hx | Hx].
  - rewrite normalCDF_neg_arg by assumption.
    pose proof (erfc_approx_pos (- x)); lra.
  - rewrite normalCDF_nonneg_arg by assumption.
    pose proof (erfc_approx_lt_1 x Hx); lra.
Qed.

(** X2.  [normalCDF] stays within the range of a distribution function:
    0 <= normalCDF(x) <= 1 for every x. *)
Theorem normalCDF_range (x : R) : 0 <= normalCDF x <= 1.
Proof.
  pose proof (normalCDF_gt_0 x). pose proof (normalCDF_lt_1 x). lra.
Qed.

(** X3.  [normalCDF x + normalCDF (-x)] is exactly 1 for x <> 0, but the
    function never takes the value 1/2: it is at least 0.5000000005 on
    x >= 0 and below 0.4999999995 on x < 0. *)
Theorem normalCDF_gap_at_origin (x : R) :
  (x <> 0 -> normalCDF x + normalCDF (- x) = 1)
  /\ (0 <= x -> 0.5000000005 <= normalCDF x)
  /\ (x < 0 -> normalCDF x < 0.4999999995).
Proof.
  split; [apply normalCDF_reflect |]. split.
  - intros Hx. rewrite <- normalCDF_0. apply normalCDF_monotone, Hx.
  - intros Hx. rewrite normalCDF_neg_arg by assumption.
    assert (H : erfc_approx (- x) < erfc_approx 0)
      by (apply erfc_approx_decreasing; lra).
    rewrite erfc_approx_0 in H. lra.
Qed.

Lemma Rneqb_0_0 : Rneqb 0 0 = false.
Proof. unfold Rneqb; rewrite Reqb_true; reflexivity. Qed.

Lemma Rneqb_true_iff (a b : R) : Rneqb a b = true <-> a <> b.
Proof.
  unfold Rneqb, Reqb; destruct (Req_dec_T a b); simpl; split; intros H;
    congruence.
Qed.

Lemma hasGreeks_delta_only (p d : R) :
  hasGreeks (mkPricingResult p d 0 0 0 0) = true <-> d <> 0.
Proof.
  unfold hasGreeks; simpl. rewrite !Rneqb_0_0, !orb_false_r.
  apply Rneqb_true_iff.
Qed.

Lemma step_delta_nonzero (type : OptionType) (S K : R) :
  Spec.step_delta type S K <> 0
  <-> match type with Call => K < S | Put => S < K end.
Proof.
  destruct type; simpl.
  - destruct (Rgt_dec S K) as [H | H]; unfold Rgt in *; split; intros; lra.
  - destruct (Rlt_dec S K) as [H | H]; split; intros; lra.
Qed.

(** X4.  On the two early returns of [priceWithGreeks] the only
    sensitivity that can be non-zero is delta, so [hasGreeks] is true
    exactly when the option is strictly in the money: against the strike
    at timeToExpiration == 0, against the discounted strike at
    volatility == 0.  At or out of the money a result computed with its
    sensitivities answers false. *)
Theorem hasGreeks_early_returns (o : Option) (m : MarketData) :
  let S := getSpot m in
  let K := getStrike o in
  let T := getTimeToExpiration o in
  let discount := exp (- getRiskFreeRate m * T) in
  (T = 0 ->
   (hasGreeks (priceWithGreeks o m) = true
    <-> match getType o with Call => K < S | Put => S < K end))
  /\ (T <> 0 -> getVolatility m = 0 ->
      (hasGreeks (priceWithGreeks o m) = true
       <-> match getType o with
           | Call => K * discount < S
           | Put => S < K * discount
           end)).
Proof.
  intros S K T discount; split.
  - intros HT. rewrite priceWithGreeks_at_expiration by assumption.
    rewrite hasGreeks_delta_only. apply step_delta_nonzero.
  - intros HT Hs. rewrite priceWithGreeks_zero_volatility by assumption.
    rewrite hasGreeks_delta_only. apply step_delta_nonzero.
Qed.

Lemma hasGreeks_early_returns_witness :
  hasGreeks (priceWithGreeks (mkOption Call 100 0) (mkMarketData 90 0.05 0.2))
  = true <-> 100 < 90.
Proof.
  exact (proj1 (hasGreeks_early_returns (mkOption Call 100 0)
                  (mkMarketData 90 0.05 0.2)) eq_refl).
Defined.


















Lemma normalCDF_gap_at_origin_witness : 0.5000000005 <= normalCDF 1.
Proof. apply (proj1 (proj2 (normalCDF_gap_at_origin 1))); lra. Defined.

(** ** The command line *)

Lemma pair_induction (A : Type) (P : list A -> Prop) :
  P [] -> (forall x, P [x]) -> (forall x y l, P l -> P (x :: y :: l)) ->
  forall l, P l.
Proof.
  intros H0 H1 H2.
  assert (H : forall l, P l /\ forall x, P (x :: l)).
  { induction l as [| y l [IH1 IH2]]; split; auto. }
  intros l; apply H.
Qed.

Section Parsing.
Variable stod : string -> option R.

(** A run of the loop that ends without [--help] has consumed its
    arguments in pairs, so parsing resumes after it. *)
Lemma parse_app (rest pre : list string) :
  forall a a',
    main_cpp.parseArguments_from stod pre a = inr a' -> main_cpp.help a' = false ->
    main_cpp.parseArguments_from stod (pre ++ rest) a = main_cpp.parseArguments_from stod rest a'.
Proof.
  induction pre as [| x | x y l IH] using pair_induction; intros a a' Hp Hh.
  - simpl in Hp; injection Hp as <-; reflexivity.
  - simpl in Hp.
    destruct ((x =? "--help") || (x =? "-h"))%string.
    + injection Hp as <-. discriminate.
    + discriminate.
  - change ((x :: y :: l) ++ rest) with (x :: y :: (l ++ rest)).
    simpl in Hp |- *.
    destruct ((x =? "--help") || (x =? "-h"))%string.
    { injection Hp as <-. discriminate. }
    destruct (x =? "--model")%string; [eapply IH; eauto |].
    destruct (x =? "--type")%string.
    { destruct (main_cpp.parseOptionType y); [discriminate | eapply IH; eauto]. }
    destruct (x =? "--spot")%string.
    { destruct (main_cpp.parseDouble stod y "--spot");
        [discriminate | eapply IH; eauto]. }
    destruct (x =? "--strike")%string.
    { destruct (main_cpp.parseDouble stod y "--strike");
        [discriminate | eapply IH; eauto]. }
    destruct (x =? "--rate")%string.
    { destruct (main_cpp.parseDouble stod y "--rate");
        [discriminate | eapply IH; eauto]. }
    destruct (x =? "--vol")%string.
    { destruct (main_cpp.parseDouble stod y "--vol");
        [discriminate | eapply IH; eauto]. }
    destruct (x =? "--maturity")%string.
    { destruct (main_cpp.parseDouble stod y "--maturity");
        [discriminate | eapply IH; eauto]. }
    discriminate.
Qed.

(** X13.  [--help] or [-h] met where a flag is expected ends the parse:
    once the arguments before it have been consumed without error, the
    result is what they gave with [help] set, and nothing after it is
    looked at. *)
Theorem help_ends_parsing (pre rest : list string) (h : string)
  (a a' : main_cpp.CliArguments) :
  main_cpp.parseArguments_from stod pre a = inr a' -> main_cpp.help a' = false ->
  h = "--help"%string \/ h = "-h"%string ->
  main_cpp.parseArguments_from stod (pre ++ h :: rest) a = inr (main_cpp.set_help true a').
Proof.
  intros Hp Hh Hhelp.
  rewrite (parse_app _ _ _ _ Hp Hh).
  destruct Hhelp as [-> | ->]; reflexivity.
Qed.

(** X14.  Where a flag is expected, an argument other than [--help] and
    [-h] is rejected as "Unknown argument: <arg>" when it is the last one,
    even if it is one of the seven flags (its value is missing), and when
    it is none of the seven flags, whatever follows. *)
Theorem stray_argument_rejected (pre rest : list string) (arg : string)
  (a a' : main_cpp.CliArguments) :
  main_cpp.parseArguments_from stod pre a = inr a' -> main_cpp.help a' = false ->
  arg <> "--help"%string -> arg <> "-h"%string ->
  rest = []
  \/ ~ In arg ["--model"; "--type"; "--spot"; "--strike"; "--rate"; "--vol";
               "--maturity"]%string ->
  main_cpp.parseArguments_from stod (pre ++ arg :: rest) a = inl (main_cpp.unknown_argument arg).
Proof.
  intros Hp Hh Harg1 Harg2 Hcase.
  rewrite (parse_app _ _ _ _ Hp Hh).
  simpl.
  destruct (String.eqb_spec arg "--help") as [E | _]; [contradiction |].
  destruct (String.eqb_spec arg "-h") as [E | _]; [contradiction |].
  simpl.
  destruct rest as [| value rest']; [reflexivity |].
  destruct Hcase as [H | Hnot]; [discriminate |].
  simpl in Hnot.
  repeat match goal with
  | |- context [(arg =? ?s)%string] =>
      destruct (String.eqb_spec arg s) as [-> | _];
      [exfalso; apply Hnot; tauto |]
  end.
  reflexivity.
Qed.


(** Without the flag, the member keeps the value it had. *)
Lemma parse_keeps_spot (argv : list string) :
  forall a a',
    main_cpp.parseArguments_from stod argv a = inr a' ->
    ~ In "--spot"%string argv -> main_cpp.spot a' = main_cpp.spot a.
Proof.
  induction argv as [| x | x y l IH] using pair_induction;
    intros a a' Hp Hn.
  - simpl in Hp; injection Hp as <-; reflexivity.
  - simpl in Hp.
    destruct ((x =? "--help") || (x =? "-h"))%string;
      [injection Hp as <-; reflexivity | discriminate].
  - assert (Hx : x <> "--spot"%string) by (intros ->; apply Hn; left; auto).
    assert (Hl : ~ In "--spot"%string l)
      by (intros H; apply Hn; right; right; exact H).
    simpl in Hp.
    destruct ((x =? "--help") || (x =? "-h"))%string;
      [injection Hp as <-; reflexivity |].
    destruct (x =? "--model")%string;
      [rewrite (IH _ _ Hp Hl); reflexivity |].
    destruct (x =? "--type")%string.
    { destruct (main_cpp.parseOptionType y); [discriminate |].
      rewrite (IH _ _ Hp Hl); reflexivity. }
    destruct (String.eqb_spec x "--spot"); [contradiction |].
    destruct (x =? "--strike")%string.
    { destruct (main_cpp.parseDouble stod y "--strike"); [discriminate |].
      rewrite (IH _ _ Hp Hl); reflexivity. }
    destruct (x =? "--rate")%string.
    { destruct (main_cpp.parseDouble stod y "--rate"); [discriminate |].
      rewrite (IH _ _ Hp Hl); reflexivity. }
    destruct (x =? "--vol")%string.
    { destruct (main_cpp.parseDouble stod y "--vol"); [discriminate |].
      rewrite (IH _ _ Hp Hl); reflexivity. }
    destruct (x =? "--maturity")%string.
    { destruct (main_cpp.parseDouble stod y "--maturity"); [discriminate |].
      rewrite (IH _ _ Hp Hl); reflexivity. }
    discriminate.
Qed.

Lemma parse_keeps_strike (argv : list string) :
  forall a a',
    main_cpp.parseArguments_from stod argv a = inr a' ->
    ~ In "--strike"%string argv -> main_cpp.strike a' = main_cpp.strike a.
Proof.
  induction argv as [| x | x y l IH] using pair_induction;
    intros a a' Hp Hn.
  - simpl in Hp; injection Hp as <-; reflexivity.
  - simpl in Hp.
    destruct ((x =? "--help") || (x =? "-h"))%string;
      [injection Hp as <-; reflexivity | discriminate].
  - assert (Hx : x <> "--strike"%string) by (intros ->; apply Hn; left; auto).
    assert (Hl : ~ In "--strike"%string l)
      by (intros H; apply Hn; right; right; exact H).
    simpl in Hp.
    destruct ((x =? "--help") || (x =? "-h"))%string;
      [injection Hp as <-; reflexivity |].
    destruct (x =? "--model")%string;
      [rewrite (IH _ _ Hp Hl); reflexivity |].
    destruct (x =? "--type")%string.
    { destruct (main_cpp.parseOptionType y); [discriminate |].
      rewrite (IH _ _ Hp Hl); reflexivity. }
    destruct (x =? "--spot")%string.
    { destruct (main_cpp.parseDouble stod y "--spot"); [discriminate |].
      rewrite (IH _ _ Hp Hl); reflexivity. }
    destruct (String.eqb_spec x "--strike"); [contradiction |].
    destruct (x =? "--rate")%string.
    { destruct (main_cpp.parseDouble stod y "--rate"); [discriminate |].
      rewrite (IH _ _ Hp Hl); reflexivity. }
    destruct (x =? "--vol")%string.
    { destruct (main_cpp.parseDouble stod y "--vol"); [discriminate |].
      rewrite (IH _ _ Hp Hl); reflexivity. }
    destruct (x =? "--maturity")%string.
    { destruct (main_cpp.parseDouble stod y "--maturity"); [discriminate |].
      rewrite (IH _ _ Hp Hl); reflexivity. }
    discriminate.
Qed.

End Parsing.

Section BadValue.
Variable stod : string -> option R.

(** X15.  A flag takes the argument after it as its value, whatever that
    looks like.  If [std::stod] throws on the value of a numeric flag the
    parse fails with "Invalid value for <flag>: <value>"; if the value of
    [--type] is neither "call" nor "put" it fails with "Invalid option
    type: <value> (must be 'call' or 'put')". *)
Theorem bad_value_reported (pre rest : list string) (flag value : string)
  (a a' : main_cpp.CliArguments) :
  main_cpp.parseArguments_from stod pre a = inr a' ->
  main_cpp.help a' = false ->
  (In flag ["--spot"; "--strike"; "--rate"; "--vol"; "--maturity"]%string
   /\ stod value = None ->
   main_cpp.parseArguments_from stod (pre ++ flag :: value :: rest) a
   = inl (main_cpp.std_invalid_argument
            ("Invalid value for " ++ flag ++ ": " ++ value)))
  /\ (flag = "--type"%string /\ value <> "call"%string
      /\ value <> "put"%string ->
      main_cpp.parseArguments_from stod (pre ++ flag :: value :: rest) a
      = inl (main_cpp.std_invalid_argument
               ("Invalid option type: " ++ value
                ++ " (must be 'call' or 'put')"))).
Proof.
  intros Hp Hh; split.
  - intros [Hin Hv].
    rewrite (parse_app stod _ _ _ _ Hp Hh).
    simpl in Hin.
    destruct Hin as [<- | [<- | [<- | [<- | [<- | []]]]]]; simpl;
      unfold main_cpp.parseDouble; rewrite Hv; reflexivity.
  - intros (-> & Hc & Hpu).
    rewrite (parse_app stod _ _ _ _ Hp Hh). simpl.
    unfold main_cpp.parseOptionType.
    destruct (String.eqb_spec value "call"); [contradiction |].
    destruct (String.eqb_spec value "put"); [contradiction |].
    reflexivity.
Qed.

End BadValue.

Lemma validateArguments_ok (a : main_cpp.CliArguments) :
  main_cpp.validateArguments a = inr tt
  <-> main_cpp.model a = "black_scholes"%string
      /\ 0 < main_cpp.spot a /\ 0 < main_cpp.strike a
      /\ 0 <= main_cpp.vol a /\ 0 <= main_cpp.maturity a.
Proof.
  unfold main_cpp.validateArguments, Rleb, Rltb.
  destruct (String.eqb_spec (main_cpp.model a) "black_scholes") as [Em | Em];
    simpl.
  - destruct (Rle_dec (main_cpp.spot a) 0), (Rle_dec (main_cpp.strike a) 0),
      (Rlt_dec (main_cpp.vol a) 0), (Rlt_dec (main_cpp.maturity a) 0);
      split; intros H; try discriminate; try reflexivity;
      try (repeat split; (assumption || lra)); try lra.
  - split; [discriminate | intros [H _]; contradiction].
Qed.

Section Main.
Variable stod : string -> option R.
Variable put_double : R -> string.
Variable ctor_what : Error -> string.

(** After validation neither constructor can throw. *)
Lemma main_unfolded (programName : string) (argv : list string) :
  main_cpp.main stod put_double ctor_what programName argv
  = match main_cpp.parseArguments stod argv with
    | inl e => main_cpp.report programName (main_cpp.what e)
    | inr args =>
        if main_cpp.help args then
          main_cpp.mkOutcome 0 EmptyString (main_cpp.printUsage programName)
        else
          match main_cpp.validateArguments args with
          | inl e => main_cpp.report programName (main_cpp.what e)
          | inr _ =>
              main_cpp.mkOutcome 0
                (main_cpp.printResult put_double
                   (BlackScholesModel.price
                      (mkOption (main_cpp.optionType args)
                         (main_cpp.strike args) (main_cpp.maturity args))
                      (mkMarketData (main_cpp.spot args) (main_cpp.rate args)
                         (main_cpp.vol args)))
                   args) EmptyString
          end
    end.
Proof.
  unfold main_cpp.main.
  destruct (main_cpp.parseArguments stod argv) as [e | args]; [reflexivity |].
  destruct (main_cpp.help args); [reflexivity |].
  destruct (main_cpp.validateArguments args) as [e | []] eqn:Hv;
    [reflexivity |].
  apply validateArguments_ok in Hv. destruct Hv as (_ & HS & HK & Hs & HT).
  rewrite Option_ctor_valid, MarketData_ctor_valid by assumption.
  reflexivity.
Qed.

(** X16.  [main] returns 0 or 1; it returns 0 exactly when the arguments
    parse and either help was asked for or [validateArguments] accepts
    them.  When it returns 1 nothing is written to [std::cout], and when
    something is written to [std::cout] nothing is written to
    [std::cerr]. *)
Theorem main_exit_status (programName : string) (argv : list string) :
  let out := main_cpp.main stod put_double ctor_what programName argv in
  (main_cpp.exit_status out = 0%Z \/ main_cpp.exit_status out = 1%Z)
  /\ (main_cpp.exit_status out = 0%Z
      <-> exists args,
            main_cpp.parseArguments stod argv = inr args
            /\ (main_cpp.help args = true
                \/ main_cpp.validateArguments args = inr tt))
  /\ (main_cpp.exit_status out = 1%Z -> main_cpp.cout out = EmptyString)
  /\ (main_cpp.cout out <> EmptyString -> main_cpp.cerr out = EmptyString).
Proof.
  intros out; subst out. rewrite main_unfolded.
  destruct (main_cpp.parseArguments stod argv) as [e | args].
  - simpl. repeat split; auto; try discriminate.
    + intros (args & H & _); discriminate.
    + intros H; contradiction.
  - destruct (main_cpp.help args) eqn:Hh.
    + simpl. repeat split; auto; try discriminate.
      * intros _. exists args; auto.
      * intros H; contradiction.
    + destruct (main_cpp.validateArguments args) as [e | []] eqn:Hv.
      * simpl. repeat split; auto; try discriminate.
        -- intros (args' & [= <-] & [H | H]); congruence.
        -- intros H; contradiction.
      * simpl. repeat split; auto; try discriminate.
        intros _. exists args; auto.
Qed.

(** X17.  [--spot] and [--strike] are required: if [main] returns 0 then
    either help was asked for or both flags occur among the arguments
    (their defaults, 0.0, do not pass [validateArguments]). *)
Theorem spot_and_strike_required (programName : string) (argv : list string) :
  main_cpp.exit_status
    (main_cpp.main stod put_double ctor_what programName argv) = 0%Z ->
  (exists args,
     main_cpp.parseArguments stod argv = inr args
     /\ main_cpp.help args = true)
  \/ (In "--spot"%string argv /\ In "--strike"%string argv).
Proof.
  rewrite main_unfolded. unfold main_cpp.parseArguments.
  destruct (main_cpp.parseArguments_from stod argv
              main_cpp.CliArguments_default) as [e | args] eqn:Hp;
    [discriminate |].
  destruct (main_cpp.help args) eqn:Hh; [left; exists args; auto |].
  destruct (main_cpp.validateArguments args) as [e | []] eqn:Hv;
    [discriminate |].
  intros _.
  right. apply validateArguments_ok in Hv.
  destruct Hv as (_ & HS & HK & _).
  split.
  - destruct (in_dec string_dec "--spot"%string argv) as [Hin | Hn];
      [exact Hin |].
    rewrite (parse_keeps_spot stod _ _ _ Hp Hn) in HS. simpl in HS. lra.
  - destruct (in_dec string_dec "--strike"%string argv) as [Hin | Hn];
      [exact Hin |].
    rewrite (parse_keeps_strike stod _ _ _ Hp Hn) in HK. simpl in HK. lra.
Qed.

(** X18.  When the arguments parse, help is not asked for, the model is
    "black_scholes", spot and strike are positive and vol and maturity
    non-negative, [main] returns 0, writes nothing to [std::cerr] and
    writes to [std::cout] the report of [price] on the option and market
    data built from the arguments: after [validateArguments] neither
    constructor throws. *)
Theorem main_prints_price (programName : string) (argv : list string)
  (args : main_cpp.CliArguments) :
  main_cpp.parseArguments stod argv = inr args ->
  main_cpp.help args = false ->
  main_cpp.model args = "black_scholes"%string ->
  0 < main_cpp.spot args -> 0 < main_cpp.strike args ->
  0 <= main_cpp.vol args -> 0 <= main_cpp.maturity args ->
  main_cpp.main stod put_double ctor_what programName argv
  = main_cpp.mkOutcome 0
      (main_cpp.printResult put_double
         (BlackScholesModel.price
            (mkOption (main_cpp.optionType args) (main_cpp.strike args)
               (main_cpp.maturity args))
            (mkMarketData (main_cpp.spot args) (main_cpp.rate args)
               (main_cpp.vol args)))
         args) EmptyString.
Proof.
  intros Hp Hh Hm HS HK Hs HT.
  rewrite main_unfolded, Hp, Hh.
  assert (Hv : main_cpp.validateArguments args = inr tt)
    by (apply validateArguments_ok; auto).
  rewrite Hv. reflexivity.
Qed.

(** X19.  With [--spot] and [--strike] alone the other members keep their
    defaults (call, rate 0, vol 0, maturity 0), so the at-expiration regime
    is taken and the price reported is max(spot - strike, 0). *)
Theorem spot_and_strike_alone (programName s k : string) (S K : R) :
  stod s = Some S -> stod k = Some K -> 0 < S -> 0 < K ->
  main_cpp.main stod put_double ctor_what programName
    ["--spot"; s; "--strike"; k]%string
  = main_cpp.mkOutcome 0
      (main_cpp.printResult put_double
         (mkPricingResult (Rmax (S - K) 0) 0 0 0 0 0)
         (main_cpp.mkCliArguments "black_scholes" Call S K 0 0 0 false))
      EmptyString.
Proof.
  intros Hs Hk HS HK.
  rewrite main_unfolded. unfold main_cpp.parseArguments; simpl.
  unfold main_cpp.parseDouble. rewrite Hs, Hk. simpl.
  assert (Hv : main_cpp.validateArguments
                 (main_cpp.set_strike K
                    (main_cpp.set_spot S main_cpp.CliArguments_default))
               = inr tt)
    by (apply validateArguments_ok; simpl; repeat split; auto; lra).
  rewrite Hv.
  rewrite price_at_expiration by reflexivity. reflexivity.
Qed.

End Main.


Lemma bad_value_reported_witness :
  main_cpp.parseArguments_from (fun _ => None)
    ["--spot"; "--help"]%string main_cpp.CliArguments_default
  = inl (main_cpp.std_invalid_argument "Invalid value for --spot: --help"%string).
Proof.
  apply (proj1 (bad_value_reported (fun _ => None) [] [] "--spot"%string "--help"%string
                  main_cpp.CliArguments_default main_cpp.CliArguments_default
                  eq_refl eq_refl)).
  split; [simpl; auto | reflexivity].
Defined.

Lemma help_ends_parsing_witness :
  main_cpp.parseArguments_from (fun _ => Some 1)
    ["--spot"; "100"; "--help"; "--bogus"]%string main_cpp.CliArguments_default
  = inr (main_cpp.set_help true
           (main_cpp.set_spot 1 main_cpp.CliArguments_default)).
Proof.
  apply (help_ends_parsing (fun _ => Some 1) ["--spot"; "100"]%string
           ["--bogus"]%string "--help"%string main_cpp.CliArguments_default
           (main_cpp.set_spot 1 main_cpp.CliArguments_default));
    [reflexivity | reflexivity | left; reflexivity].
Defined.

Lemma stray_argument_rejected_witness :
  main_cpp.parseArguments_from (fun _ => Some 1)
    ["--spot"; "100"; "--strike"]%string main_cpp.CliArguments_default
  = inl (main_cpp.unknown_argument "--strike"%string).
Proof.
  apply (stray_argument_rejected (fun _ => Some 1) ["--spot"; "100"]%string
           [] "--strike"%string main_cpp.CliArguments_default
           (main_cpp.set_spot 1 main_cpp.CliArguments_default));
    [reflexivity | reflexivity | discriminate | discriminate
    | left; reflexivity].
Defined.

Lemma main_prints_price_witness :
  main_cpp.main (fun _ => Some 1) (fun _ => "1.000000"%string)
    (fun _ => EmptyString) "pricer"%string
    ["--spot"; "1"; "--strike"; "1"]%string
  = main_cpp.mkOutcome 0
      (main_cpp.printResult (fun _ => "1.000000"%string)
         (BlackScholesModel.price (mkOption Call 1 0) (mkMarketData 1 0 0))
         (main_cpp.mkCliArguments "black_scholes"%string Call 1 1 0 0 0 false))
      EmptyString.
Proof.
  apply (main_prints_price (fun _ => Some 1) (fun _ => "1.000000"%string)
           (fun _ => EmptyString) "pricer"%string
           ["--spot"; "1"; "--strike"; "1"]%string
           (main_cpp.mkCliArguments "black_scholes"%string Call 1 1 0 0 0 false));
    simpl; first [reflexivity | lra].
Defined.

Lemma spot_and_strike_required_witness :
  In "--spot"%string ["--spot"; "1"; "--strike"; "1"]%string
  /\ In "--strike"%string ["--spot"; "1"; "--strike"; "1"]%string.
Proof.
  destruct (spot_and_strike_required (fun _ => Some 1)
              (fun _ => "1.000000"%string) (fun _ => EmptyString) "pricer"%string
              ["--spot"; "1"; "--strike"; "1"]%string) as [H | H].
  - rewrite main_unfolded. unfold main_cpp.parseArguments; simpl.
    assert (Hv : main_cpp.validateArguments
                   (main_cpp.set_strike 1
                      (main_cpp.set_spot 1 main_cpp.CliArguments_default))
                 = inr tt)
      by (apply validateArguments_ok; simpl; repeat split;
          first [reflexivity | lra]).
    rewrite Hv. reflexivity.
  - destruct H as (args & Hp & Hh). cbv in Hp.
    injection Hp as <-. discriminate.
  - exact H.
Defined.

Lemma spot_and_strike_alone_witness :
  main_cpp.main (fun _ => Some 1) (fun _ => "1.000000"%string)
    (fun _ => EmptyString) "pricer"%string ["--spot"; "110"; "--strike"; "100"]%string
  = main_cpp.mkOutcome 0
      (main_cpp.printResult (fun _ => "1.000000"%string)
         (mkPricingResult (Rmax (1 - 1) 0) 0 0 0 0 0)
         (main_cpp.mkCliArguments "black_scholes"%string Call 1 1 0 0 0 false))
      EmptyString.
Proof.
  apply (spot_and_strike_alone (fun _ => Some 1)
           (fun _ => "1.000000"%string) (fun _ => EmptyString) "pricer"%string
           "110"%string "100"%string 1 1); first [reflexivity | lra].
Defined.

Lemma main_exit_status_witness :
  main_cpp.exit_status
    (main_cpp.main (fun _ => None) (fun _ => EmptyString)
       (fun _ => EmptyString) "pricer"%string ["--help"]%string)
  = 0%Z.
Proof.
  apply (proj2 (proj1 (proj2 (main_exit_status (fun _ => None)
                                (fun _ => EmptyString) (fun _ => EmptyString)
                                "pricer"%string ["--help"]%string)))).
  exists (main_cpp.set_help true main_cpp.CliArguments_default).
  split; [reflexivity | left; reflexivity].
Defined.
